(** * BookmarkServer: a shallow embedding of [BookmarkServer.py]

    The server keeps one process-wide dictionary [memory] from short names
    to long URIs, checks a long URI with one [requests.get] before storing
    it, and answers three kinds of requests ([GET /], [GET /name], [POST]).

    A Python [str] is modelled by the [string] of its UTF-8 bytes: the
    order of [str] by code points is the lexicographic order of these
    bytes, [.encode()] and [.decode()] are the identity, and a [str] has a
    latin-1 encoding exactly when none of its bytes is [0xC4] or above.
    The dictionary is a [gmap string string], and the handler's effects
    (the store, its calls on the connection, [print] output, calls to
    [requests.get], raised exceptions) are threaded by a small
    state-and-exception monad. *)

From Stdlib Require Import QArith Ascii.
From stdpp Require Import gmap strings list fin_maps sorting.

Local Open Scope string_scope.
Local Open Scope Z_scope.
Local Open Scope list_scope.

(** ** The double quote and the line feed *)

Definition dquote : string := String (Ascii.ascii_of_nat 34) EmptyString.
Definition newline : string := String (Ascii.ascii_of_nat 10) EmptyString.

(** ** Python string operations used by the handlers *)

(** A byte that continues a character begun by an earlier byte. *)
Definition is_continuation (c : Ascii.ascii) : bool :=
  ((128 <=? Ascii.N_of_ascii c) && (Ascii.N_of_ascii c <? 192))%N.

Fixpoint drop_continuation (s : string) : string :=
  match s with
  | EmptyString => EmptyString
  | String c rest => if is_continuation c then drop_continuation rest else s
  end.

(** [s[1:]]: the string without its first character, that is, without
    its first byte and the bytes that continue it. *)
Definition slice_from_1 (s : string) : string :=
  match s with
  | EmptyString => EmptyString
  | String _ rest => drop_continuation rest
  end.

(** [sep.join(parts)] *)
Fixpoint join (sep : string) (parts : list string) : string :=
  match parts with
  | [] => EmptyString
  | [p] => p
  | p :: ps => p +:+ sep +:+ join sep ps
  end.

(** Truth value of a string: [if name:] holds for non-empty strings. *)
Definition truthy (s : string) : bool :=
  match s with
  | EmptyString => false
  | String _ _ => true
  end.

(** [s.encode('latin-1', 'strict')] succeeds: every character of [s] is
    at most U+00FF, which in UTF-8 means every byte is below [0xC4]. *)
Fixpoint latin1_encodable (s : string) : bool :=
  match s with
  | EmptyString => true
  | String c rest => (Ascii.N_of_ascii c <? 196)%N && latin1_encodable rest
  end.

(** [t] occurs in [s] as a contiguous substring. *)
Definition contains (s t : string) : Prop :=
  exists pre post : string, s = pre +:+ t +:+ post.

(** ** The order used by [sorted] on strings *)

Definition str_le (s1 s2 : string) : Prop := String.leb s1 s2 = true.
Definition str_lt (s1 s2 : string) : Prop := String.ltb s1 s2 = true.

#[global] Instance str_le_dec : RelDecision str_le.
Proof. intros s1 s2. unfold str_le. apply _. Defined.

(** [sorted(xs)] for a list of strings. *)
Definition sorted (xs : list string) : list string := merge_sort str_le xs.

(** ** Exceptions and results *)

(** The exception classes of [requests.exceptions] that [requests.get]
    can raise. *)
Inductive requests_exception : Type :=
| MissingSchema
| InvalidSchema
| InvalidURL
| ConnectTimeout
| ReadTimeout
| ConnectionError
| TooManyRedirects
| OtherRequestException.

Inductive exn : Type :=
| KeyError (key : string)
| IndexError
| UnicodeEncodeError
| RequestsError (e : requests_exception).

Inductive result (A : Type) : Type :=
| Ok (a : A)
| Raise (e : exn).
Arguments Ok {A} a.
Arguments Raise {A} e.

(** What one call of [requests.get] comes back with: a response object
    (of which the code reads only [status_code]) or an exception. *)
Record response : Type := { status_code : Z }.

Inductive get_outcome : Type :=
| Responded (r : response)
| Failed (e : requests_exception).

(** ** What a handler does to the client connection

    The calls a handler makes on [self] and [self.wfile]. In
    [BaseHTTPRequestHandler], [send_response] and [send_header] encode
    their line as latin-1 and append it to the header buffer;
    [end_headers] writes the buffer to the client; [wfile.write] writes
    at once; [send_error] is a whole response of its own, status line,
    headers and body. *)

Inductive wire_event : Type :=
| send_response (code : Z)
| send_header (key value : string)
| end_headers
| wfile_write (data : string)
| send_error (code : Z) (message : string).

(** ** The state threaded through a handler *)

Record world : Type := mkWorld {
  memory : gmap string string;          (* the module-level dict *)
  wire : list wire_event;               (* the calls on the connection that returned *)
  stdout : list string;                 (* lines written by print *)
  gets : list (string * Q)              (* calls of requests.get: url, timeout *)
}.

Definition set_memory (m : gmap string string) (w : world) : world :=
  mkWorld m (wire w) (stdout w) (gets w).
Definition add_wire (e : wire_event) (w : world) : world :=
  mkWorld (memory w) (wire w ++ [e]) (stdout w) (gets w).
Definition add_stdout (l : string) (w : world) : world :=
  mkWorld (memory w) (wire w) (stdout w ++ [l]) (gets w).
Definition add_get (url : string) (timeout : Q) (w : world) : world :=
  mkWorld (memory w) (wire w) (stdout w) (gets w ++ [(url, timeout)]).

(** ** The monad: state plus exceptions (state survives a raise) *)

Definition M (A : Type) : Type := world -> result A * world.

Definition ret {A} (a : A) : M A := fun w => (Ok a, w).
Definition raise {A} (e : exn) : M A := fun w => (Raise e, w).
Definition bind {A B} (k : A -> M B) (c : M A) : M B :=
  fun w => match c w with
           | (Ok a, w') => k a w'
           | (Raise e, w') => (Raise e, w')
           end.

#[global] Instance M_ret : MRet M := @ret.
#[global] Instance M_bind : MBind M := @bind.

(** [try: c / except: handler / else: k] *)
Definition try_except_else {A B} (c : M A) (handler : exn -> M B) (k : A -> M B)
  : M B :=
  fun w => match c w with
           | (Ok a, w') => k a w'
           | (Raise e, w') => handler e w'
           end.

Definition emit (e : wire_event) : M unit := fun w => (Ok tt, add_wire e w).

(** [self.send_header(key, value)]: the header line is encoded as
    latin-1, strict, before it is put into the buffer. *)
Definition do_send_header (key value : string) : M unit :=
  if latin1_encodable key && latin1_encodable value
  then emit (send_header key value)
  else raise UnicodeEncodeError.

(** [self.send_error(code, message)]: the status line, which carries
    [message], is encoded as latin-1, strict, before anything is buffered
    or written. *)
Definition do_send_error (code : Z) (message : string) : M unit :=
  if latin1_encodable message
  then emit (send_error code message)
  else raise UnicodeEncodeError.
Definition print (l : string) : M unit := fun w => (Ok tt, add_stdout l w).
Definition get_memory : M (gmap string string) := fun w => (Ok (memory w), w).

(** ** The mapping store: the three uses of [memory] in the source *)

Module Store.

(** [memory[alias] = uri] *)
Definition Insert (alias uri : string) (m : gmap string string)
  : gmap string string := <[alias := uri]> m.

(** [name in memory] together with [memory[name]] *)
Definition Lookup (alias : string) (m : gmap string string) : option string :=
  m !! alias.

(** [sorted(memory.keys())] *)
Definition sorted_keys (m : gmap string string) : list string :=
  sorted (map_to_list m).*1.

(** The state of the module after [memory = {}] and a run of inserts. *)
Definition after_inserts (ops : list (string * string)) : gmap string string :=
  foldl (fun m op => Insert op.1 op.2 m) ∅ ops.

End Store.

(** [memory[shortname] = longuri] *)
Definition memory_setitem (k v : string) : M unit :=
  fun w => (Ok tt, set_memory (Store.Insert k v (memory w)) w).

(** [memory[key]] raises [KeyError] on a missing key. *)
Definition memory_getitem (k : string) : M string :=
  fun w => match Store.Lookup k (memory w) with
           | Some v => (Ok v, w)
           | None => (Raise (KeyError k), w)
           end.

(** [params[key]] on the dict returned by [parse_qs]. *)
Definition params_getitem (params : gmap string (list string)) (k : string)
  : M (list string) :=
  match params !! k with
  | Some vs => ret vs
  | None => raise (KeyError k)
  end.

(** [values[0]] *)
Definition first_item (vs : list string) : M string :=
  match vs with
  | v :: _ => ret v
  | [] => raise IndexError
  end.

(** Monadic map, for the generator expression inside [join]. *)
Fixpoint mapM {A B} (f : A -> M B) (xs : list A) : M (list B) :=
  match xs with
  | [] => ret []
  | x :: xs' => y ← f x; ys ← mapM f xs'; ret (y :: ys)
  end.

(** ** The page template *)

(** The text of [form] before and after its single replacement field. *)
Definition form_head : string :=
  "<!DOCTYPE html>" +:+ newline +:+
  "<title>Bookmark Server</title>" +:+ newline +:+
  "<form method=" +:+ dquote +:+ "POST" +:+ dquote +:+ ">" +:+ newline +:+
  "    <label>Long URI:" +:+ newline +:+
  "        <input name=" +:+ dquote +:+ "longuri" +:+ dquote +:+ ">" +:+ newline +:+
  "    </label>" +:+ newline +:+
  "    <br>" +:+ newline +:+
  "    <label>Short name:" +:+ newline +:+
  "        <input name=" +:+ dquote +:+ "shortname" +:+ dquote +:+ ">" +:+ newline +:+
  "    </label>" +:+ newline +:+
  "    <br>" +:+ newline +:+
  "    <button type=" +:+ dquote +:+ "submit" +:+ dquote +:+ ">Save it!</button>" +:+ newline +:+
  "</form>" +:+ newline +:+
  "<p>URIs I know about:" +:+ newline +:+
  "<pre>" +:+ newline.

Definition form_tail : string :=
  newline +:+ "</pre>" +:+ newline.

(** [form.format(known)] *)
Definition form_format (known : string) : string :=
  form_head +:+ known +:+ form_tail.

(** ["{} : {}".format(key, value)] *)
Definition entry_line (key value : string) : string :=
  key +:+ " : " +:+ value.

(** ["{} : {}".format(key, memory[key])], the body of the generator in
    the root page. *)
Definition line_of (key : string) : M string :=
  v ← memory_getitem key; ret (entry_line key v).

(** ['"' + x + '"'] *)
Definition quoted (x : string) : string := dquote +:+ x +:+ dquote.

Section Server.

(** The library functions and the network the handlers call into. *)
Variable unquote : string -> string.
Variable parse_qs : string -> gmap string (list string).
Variable network : string -> Q -> get_outcome.

(** [requests.get(url=..., timeout=...)] *)
Definition requests_get (url : string) (timeout : Q) : M response :=
  fun w => match network url timeout with
           | Responded r => (Ok r, add_get url timeout w)
           | Failed e => (Raise (RequestsError e), add_get url timeout w)
           end.

(** [def CheckURI(uri, timeout=5)] *)
Definition CheckURI_default_timeout : Q := 5 # 1.

Definition CheckURI (uri : string) (timeout : Q) : M bool :=
  try_except_else
    (requests_get uri (2 # 1))
    (fun e => match e with
              | RequestsError MissingSchema => ret false
              | _ => raise e
              end)
    (fun r => ret (status_code r =? 200)).

(** [Shortener.do_GET], for a request whose target is [path]. *)
Definition do_GET (path : string) : M unit :=
  let name := unquote (slice_from_1 path) in
  if truthy name then
    m ← get_memory;
    if bool_decide (is_Some (Store.Lookup name m)) then
      print "Redirect: ln 87";;
      emit (send_response 303);;
      do_send_header "Content-type" "text/html; charset=utf-8";;
      target ← memory_getitem name;
      do_send_header "Location" target;;
      emit end_headers
    else
      print "Unknown name: ln 94";;
      emit (send_response 404);;
      do_send_header "Content-type" "text/plain; charset=utf-8";;
      emit end_headers;;
      emit (wfile_write ("I don't know '" +:+ name +:+ "'."))
  else
    print "Root path: ln 101";;
    emit (send_response 200);;
    do_send_header "Content-type" "text/html";;
    emit end_headers;;
    m ← get_memory;
    lines ← mapM line_of (Store.sorted_keys m);
    emit (wfile_write (form_format (join newline lines))).

Definition expected_params : list string := ["longuri"; "shortname"].

(** [[p for p in expected_params if p not in params]] *)
Definition missing_params (params : gmap string (list string)) : list string :=
  filter (fun p => params !! p = None) expected_params.

(** [Shortener.do_POST]; [body] is the value the source binds to [body]:
    the [Content-length] bytes read from the request and decoded. *)
Definition do_POST (body : string) : M unit :=
  let params := parse_qs body in
  let missing := missing_params params in
  (if bool_decide (missing <> []) then
     do_send_error 400
       ("Required parameters missing: " +:+ join ", " (quoted <$> missing))
   else (ret tt : M unit));;
  longuri_values ← params_getitem params "longuri";
  longuri ← first_item longuri_values;
  shortname_values ← params_getitem params "shortname";
  shortname ← first_item shortname_values;
  ok ← CheckURI longuri CheckURI_default_timeout;
  if (ok : bool) then
    memory_setitem shortname longuri;;
    emit (send_response 303);;
    do_send_header "Content-type" "text/html; charset=utf-8";;
    do_send_header "Location" "/";;
    emit end_headers
  else
    do_send_error 404 ("Bad URI provided: " +:+ longuri).

End Server.

(** ** A concrete setting in which the handlers can be run

    Stand-ins for the library functions, exact on the inputs they are used
    on here: [unquote] is the identity on a string without a percent sign,
    and [parse_qs] on a body without percent signs and plus signs splits at
    ampersands and at the first equals sign of each pair, dropping pairs
    that have no equals sign or a blank value. *)

Module Demo.

Definition unquote (s : string) : string := s.

(** Split [s] at every occurrence of the character [c]. *)
Fixpoint split_on (c : Ascii.ascii) (s : string) : list string :=
  match s with
  | EmptyString => [EmptyString]
  | String a rest =>
      if Ascii.eqb a c then EmptyString :: split_on c rest
      else match split_on c rest with
           | [] => [String a EmptyString]
           | p :: ps => String a p :: ps
           end
  end.

(** Split [s] at its first [c], if it has one. *)
Fixpoint partition_at (c : Ascii.ascii) (s : string) : option (string * string) :=
  match s with
  | EmptyString => None
  | String a rest =>
      if Ascii.eqb a c then Some (EmptyString, rest)
      else '(name, value) ← partition_at c rest; Some (String a name, value)
  end.

Definition add_pair (params : gmap string (list string)) (pair : string)
  : gmap string (list string) :=
  match partition_at (Ascii.ascii_of_nat 61) pair with
  | Some (name, value) =>
      if truthy value
      then <[name := (default [] (params !! name) ++ [value])%list]> params
      else params
  | None => params
  end.

Definition parse_qs (body : string) : gmap string (list string) :=
  foldl add_pair ∅ (split_on (Ascii.ascii_of_nat 38) body).

Definition ok_response : response := {| status_code := 200 |}.
Definition error_response : response := {| status_code := 500 |}.

(** The character U+4E2D, which has no latin-1 encoding. *)
Definition zhong : string :=
  String (Ascii.ascii_of_nat 228)
    (String (Ascii.ascii_of_nat 184)
       (String (Ascii.ascii_of_nat 173) EmptyString)).

(** One site that answers 200, one that answers 500, one that never
    answers, and a string without a scheme; a page of the first site whose
    path is U+4E2D, and that character on its own, which has no scheme. *)
Definition network (url : string) (timeout : Q) : get_outcome :=
  if String.eqb url "http://up.example/" then Responded ok_response
  else if String.eqb url "http://down.example/" then Responded error_response
  else if String.eqb url "http://slow.example/" then Failed ReadTimeout
  else if String.eqb url "no-scheme" then Failed MissingSchema
  else if String.eqb url ("http://up.example/" +:+ zhong)
       then Responded ok_response
  else if String.eqb url zhong then Failed MissingSchema
  else Failed ConnectionError.

Definition start : world := mkWorld ∅ [] [] [].

(** The store of the listing scenario: [b] was added before [a]. *)
Definition two_bookmarks : world :=
  mkWorld (Store.Insert "a" "http://y" (Store.Insert "b" "http://x" ∅)) [] [] [].

End Demo.

(** ** Vocabulary for statements about whole requests *)

(** The status code an event puts on the wire, when it starts a response:
    [send_response] and [send_error] do, headers and body bytes do not. *)
Definition status_of (e : wire_event) : option Z :=
  match e with
  | send_response code => Some code
  | send_error code _ => Some code
  | _ => None
  end.

Definition statuses (events : list wire_event) : list Z := omap status_of events.

(** What has reached the client after a run of calls, for a handler that
    starts with an empty header buffer: calls that only fill the buffer
    count once [end_headers] or [send_error] has written it out. *)
Fixpoint delivered_from (buffer events : list wire_event) : list wire_event :=
  match events with
  | [] => []
  | send_response code :: rest =>
      delivered_from (buffer ++ [send_response code]) rest
  | send_header key value :: rest =>
      delivered_from (buffer ++ [send_header key value]) rest
  | end_headers :: rest => buffer ++ end_headers :: delivered_from [] rest
  | wfile_write data :: rest => wfile_write data :: delivered_from buffer rest
  | send_error code message :: rest =>
      buffer ++ send_error code message :: delivered_from [] rest
  end.

Definition delivered (events : list wire_event) : list wire_event :=
  delivered_from [] events.

(** The listing as the specification words it: one line [alias : uri] per
    entry, the lines separated by a line feed. *)
Fixpoint listing_text (entries : list (string * string)) : string :=
  match entries with
  | [] => EmptyString
  | [(alias, uri)] => alias +:+ " : " +:+ uri
  | (alias, uri) :: rest =>
      alias +:+ " : " +:+ uri +:+ newline +:+ listing_text rest
  end.

(** [requests.get(url=uri, timeout=2.0)] comes back with a 200. *)
Definition answers_200 (network : string -> Q -> get_outcome) (uri : string)
  : Prop :=
  exists resp, network uri (2 # 1) = Responded resp /\ status_code resp = 200.

(** A store holding one bookmark, whose URI answers 200 in [Demo.network]. *)
Definition one_bookmark : world :=
  mkWorld (Store.Insert "up" "http://up.example/" ∅) [] [] [].

(** ** The string order is a total order *)

Section Order.

Lemma ascii_compare_refl (a : Ascii.ascii) : Ascii.compare a a = Eq.
Proof. unfold Ascii.compare. apply N.compare_refl. Qed.

Lemma ascii_compare_lt_trans (a b c : Ascii.ascii) :
  Ascii.compare a b = Lt -> Ascii.compare b c = Lt -> Ascii.compare a c = Lt.
Proof.
  unfold Ascii.compare. rewrite !N.compare_lt_iff. apply N.lt_trans.
Qed.

Lemma string_compare_refl (s : string) : String.compare s s = Eq.
Proof.
  induction s as [|a s IH]; simpl; [done|]. by rewrite ascii_compare_refl.
Qed.

Lemma string_compare_eq (s1 s2 : string) :
  String.compare s1 s2 = Eq <-> s1 = s2.
Proof.
  split; [apply String.compare_eq_iff|]. intros ->. apply string_compare_refl.
Qed.

Lemma string_compare_lt_trans (s1 s2 s3 : string) :
  String.compare s1 s2 = Lt -> String.compare s2 s3 = Lt ->
  String.compare s1 s3 = Lt.
Proof.
  revert s2 s3. induction s1 as [|a s1 IH]; intros [|b s2] [|c s3]; simpl;
    try done.
  destruct (Ascii.compare a b) eqn:Hab; try done.
  - apply Ascii.compare_eq_iff in Hab as ->.
    destruct (Ascii.compare b c); try done. apply IH.
  - intros _. destruct (Ascii.compare b c) eqn:Hbc; try done.
    + apply Ascii.compare_eq_iff in Hbc as <-. by rewrite Hab.
    + by rewrite (ascii_compare_lt_trans _ _ _ Hab Hbc).
Qed.

Lemma str_le_cases (s1 s2 : string) : str_le s1 s2 <-> str_lt s1 s2 \/ s1 = s2.
Proof.
  unfold str_le, str_lt, String.leb, String.ltb.
  destruct (String.compare s1 s2) eqn:Hc.
  - apply string_compare_eq in Hc. naive_solver.
  - naive_solver.
  - split; [done|]. intros [?| ->]; [done|].
    by rewrite string_compare_refl in Hc.
Qed.

Lemma str_lt_irrefl (s : string) : ~ str_lt s s.
Proof. unfold str_lt, String.ltb. by rewrite string_compare_refl. Qed.

Lemma str_lt_trans (s1 s2 s3 : string) :
  str_lt s1 s2 -> str_lt s2 s3 -> str_lt s1 s3.
Proof.
  unfold str_lt, String.ltb. intros H12 H23.
  destruct (String.compare s1 s2) eqn:E12; try done.
  destruct (String.compare s2 s3) eqn:E23; try done.
  by rewrite (string_compare_lt_trans _ _ _ E12 E23).
Qed.

#[global] Instance str_le_trans : Transitive str_le.
Proof.
  intros s1 s2 s3. rewrite !str_le_cases.
  intros [H12| ->] [H23| ->]; eauto using str_lt_trans.
Qed.

#[global] Instance str_le_total : Total str_le.
Proof. intros s1 s2. apply String.leb_total. Qed.

#[global] Instance str_le_antisym : AntiSymm (=) str_le.
Proof. intros s1 s2. apply String.leb_antisym. Qed.

(** A duplicate-free list sorted by [str_le] is strictly ascending. *)
Lemma StronglySorted_le_NoDup_lt (l : list string) :
  StronglySorted str_le l -> NoDup l -> StronglySorted str_lt l.
Proof.
  induction 1 as [|x l Hl IH Hx]; intros Hnd; [constructor|].
  apply NoDup_cons in Hnd as [Hnotin Hnd].
  constructor; [by apply IH|].
  rewrite Forall_forall in Hx |- *. intros y Hy.
  destruct (proj1 (str_le_cases x y) (Hx y Hy)) as [?| ->]; [done|].
  by destruct Hnotin.
Qed.

Lemma sorted_Permutation (l : list string) : sorted l ≡ₚ l.
Proof. apply merge_sort_Permutation. Qed.

Lemma sorted_StronglySorted (l : list string) :
  StronglySorted str_le (sorted l).
Proof. apply StronglySorted_merge_sort; apply _. Qed.

(** The result of [sorted] does not depend on the order of its input. *)
Lemma sorted_unique (l1 l2 : list string) : l1 ≡ₚ l2 -> sorted l1 = sorted l2.
Proof.
  intros Hp. apply (Sorted_unique str_le).
  - apply Sorted_merge_sort; apply _.
  - apply Sorted_merge_sort; apply _.
  - by rewrite !sorted_Permutation.
Qed.

End Order.

(** ** Running the monad *)

(** Decide the latin-1 checks on strings that are written out. *)
Ltac eval_latin1 :=
  repeat match goal with
  | |- context [latin1_encodable ?s] =>
      let b := eval vm_compute in (latin1_encodable s) in
      match b with
      | true => change (latin1_encodable s) with true
      | false => change (latin1_encodable s) with false
      end
  end;
  cbn [andb].

Ltac unfold_calls :=
  cbv [mbind M_bind bind mret M_ret ret raise emit print get_memory
       memory_setitem try_except_else do_send_header do_send_error].

Ltac run :=
  unfold_calls; do 3 (eval_latin1; unfold_calls);
  cbn [add_wire add_stdout add_get set_memory memory wire stdout gets].

Lemma latin1_encodable_app (s1 s2 : string) :
  latin1_encodable (s1 +:+ s2) = latin1_encodable s1 && latin1_encodable s2.
Proof.
  induction s1 as [|c s1 IH]; [done|].
  change (String c s1 +:+ s2) with (String c (s1 +:+ s2)).
  cbn [latin1_encodable]. by rewrite IH, andb_assoc.
Qed.

Ltac tidy :=
  unfold add_wire, add_stdout, add_get, set_memory;
  cbn [memory wire stdout gets];
  rewrite <- ?app_assoc; cbn [app].

Lemma bind_ok {A B} (c : M A) (k : A -> M B) (w w' : world) (a : A) :
  c w = (Ok a, w') -> (c ≫= k) w = k a w'.
Proof. intros H. run. by rewrite H. Qed.

Lemma bind_raise {A B} (c : M A) (k : A -> M B) (w w' : world) (e : exn) :
  c w = (Raise e, w') -> (c ≫= k) w = (Raise e, w').
Proof. intros H. run. by rewrite H. Qed.

(** ** The store *)

Section StoreFacts.

Implicit Types (m : gmap string string) (ops : list (string * string)).

Lemma after_inserts_snoc ops a u :
  Store.after_inserts (ops ++ [(a, u)])
  = Store.Insert a u (Store.after_inserts ops).
Proof. unfold Store.after_inserts. by rewrite foldl_app. Qed.

Lemma Lookup_Insert_same m a u : Store.Lookup a (Store.Insert a u m) = Some u.
Proof. apply lookup_insert_eq. Qed.

Lemma Lookup_Insert_other m a b u :
  a ≠ b -> Store.Lookup b (Store.Insert a u m) = Store.Lookup b m.
Proof. intros. by apply lookup_insert_ne. Qed.

Lemma Lookup_never_inserted ops a :
  a ∉ ops.*1 -> Store.Lookup a (Store.after_inserts ops) = None.
Proof.
  induction ops as [|[b u] ops IH] using rev_ind; intros Hnotin.
  - apply lookup_empty.
  - rewrite after_inserts_snoc. rewrite fmap_app in Hnotin.
    apply not_elem_of_app in Hnotin as [Hops Hb].
    rewrite Lookup_Insert_other; [by apply IH|].
    intros ->. apply Hb. simpl. apply list_elem_of_here.
Qed.

Lemma Lookup_last_insert pre post a u :
  a ∉ post.*1 ->
  Store.Lookup a (Store.after_inserts (pre ++ (a, u) :: post)) = Some u.
Proof.
  induction post as [|[b v] post IH] using rev_ind; intros Hnotin.
  - rewrite after_inserts_snoc. apply Lookup_Insert_same.
  - rewrite fmap_app in Hnotin.
    apply not_elem_of_app in Hnotin as [Hpost Hb].
    replace (pre ++ (a, u) :: post ++ [(b, v)])
      with ((pre ++ (a, u) :: post) ++ [(b, v)])
      by (by rewrite <- app_assoc).
    rewrite after_inserts_snoc, Lookup_Insert_other; [by apply IH|].
    intros ->. apply Hb. simpl. apply list_elem_of_here.
Qed.

Lemma sorted_keys_spec m :
  StronglySorted str_lt (Store.sorted_keys m)
  /\ NoDup (Store.sorted_keys m)
  /\ (forall k, k ∈ Store.sorted_keys m <-> is_Some (m !! k)).
Proof.
  unfold Store.sorted_keys.
  assert (Hnd : NoDup (sorted (map_to_list m).*1)).
  { rewrite sorted_Permutation. apply NoDup_fst_map_to_list. }
  split_and!.
  - apply StronglySorted_le_NoDup_lt; [apply sorted_StronglySorted|done].
  - done.
  - intros k. rewrite sorted_Permutation, list_elem_of_fmap. split.
    + intros [[k' u] [-> Hin]]. apply elem_of_map_to_list in Hin. by exists u.
    + intros [u Hu]. exists (k, u). split; [done|].
      by apply elem_of_map_to_list.
Qed.

End StoreFacts.

(** C6. A name that was never inserted is absent; after any run of inserts
    a name resolves to the URI of its most recent insert; inserting under a
    name that is already present replaces the earlier URI, and the store
    never holds two entries for one name. *)
Theorem Store_last_write_wins :
  (forall ops a, a ∉ ops.*1 ->
     Store.Lookup a (Store.after_inserts ops) = None)
  /\ (forall pre post a u, a ∉ post.*1 ->
        Store.Lookup a (Store.after_inserts (pre ++ (a, u) :: post)) = Some u)
  /\ (forall (m : gmap string string) a u u',
        Store.Insert a u' (Store.Insert a u m) = Store.Insert a u' m)
  /\ (forall ops, NoDup (map_to_list (Store.after_inserts ops)).*1).
Proof.
  split_and!.
  - apply Lookup_never_inserted.
  - apply Lookup_last_insert.
  - intros m a u u'. apply insert_insert_eq.
  - intros ops. apply NoDup_fst_map_to_list.
Qed.

Lemma Store_last_write_wins_witness :
  Store.Lookup "c" (Store.after_inserts [("a", "http://x"); ("b", "http://y")])
    = None
  /\ Store.Lookup "a"
       (Store.after_inserts
          ([("a", "http://x")] ++ ("a", "http://z") :: [("b", "http://y")]))
     = Some "http://z".
Proof.
  split.
  - apply (proj1 Store_last_write_wins).
    by apply (bool_decide_unpack _).
  - apply (proj1 (proj2 Store_last_write_wins)).
    by apply (bool_decide_unpack _).
Defined.

(** ** The reachability check *)

Section CheckURIFacts.

Variable network : string -> Q -> get_outcome.

(** Whatever happens, [CheckURI] only records its one call. *)
Lemma CheckURI_world uri t w r w' :
  CheckURI network uri t w = (r, w') -> w' = add_get uri (2 # 1) w.
Proof.
  unfold CheckURI, requests_get. run.
  destruct (network uri (2 # 1)) as [resp|[]]; by intros [= _ <-].
Qed.

Lemma CheckURI_true uri t w w' :
  CheckURI network uri t w = (Ok true, w') ->
  exists resp, network uri (2 # 1) = Responded resp /\ status_code resp = 200.
Proof.
  unfold CheckURI, requests_get. run.
  destruct (network uri (2 # 1)) as [resp|[]]; intros [= Hb _]; try done.
  exists resp. split; [done|]. by apply Z.eqb_eq.
Qed.

End CheckURIFacts.

(** C1. [CheckURI] hands every exception of [requests.get] other than
    [MissingSchema] on to its caller: a timeout or a connection failure
    does not become [False]. *)
Theorem CheckURI_propagates_transport_errors
    (network : string -> Q -> get_outcome) uri t w e :
  network uri (2 # 1) = Failed e ->
  e <> MissingSchema ->
  CheckURI network uri t w = (Raise (RequestsError e), add_get uri (2 # 1) w).
Proof.
  intros Hnet Hne. unfold CheckURI, requests_get. run. rewrite Hnet.
  by destruct e.
Qed.

Lemma CheckURI_propagates_transport_errors_witness :
  CheckURI Demo.network "http://slow.example/" CheckURI_default_timeout Demo.start
  = (Raise (RequestsError ReadTimeout),
     add_get "http://slow.example/" (2 # 1) Demo.start).
Proof.
  apply CheckURI_propagates_transport_errors; [reflexivity|discriminate].
Defined.

(** C8. When the GET comes back with a response, [CheckURI] returns, and
    what it returns is true exactly when the status code is 200. *)
Theorem CheckURI_true_iff_200
    (network : string -> Q -> get_outcome) uri t w resp :
  network uri (2 # 1) = Responded resp ->
  exists b : bool,
    CheckURI network uri t w = (Ok b, add_get uri (2 # 1) w)
    /\ (b = true <-> status_code resp = 200).
Proof.
  intros Hnet. exists (status_code resp =? 200). split.
  - unfold CheckURI, requests_get. run. by rewrite Hnet.
  - apply Z.eqb_eq.
Qed.

Lemma CheckURI_true_iff_200_witness :
  exists b : bool,
    CheckURI Demo.network "http://down.example/" CheckURI_default_timeout
      Demo.start
    = (Ok b, add_get "http://down.example/" (2 # 1) Demo.start)
    /\ (b = true <-> status_code Demo.error_response = 200).
Proof.
  apply CheckURI_true_iff_200. reflexivity.
Defined.

(** C9. [CheckURI] calls [requests.get] once, and always with a timeout of
    two seconds: its [timeout] argument is not used. *)
Theorem CheckURI_one_get_fixed_timeout
    (network : string -> Q -> get_outcome) uri t w :
  gets (CheckURI network uri t w).2 = gets w ++ [(uri, 2 # 1)].
Proof.
  destruct (CheckURI network uri t w) as [r w'] eqn:Hrun.
  by rewrite (CheckURI_world network uri t w r w' Hrun).
Qed.

(** [CheckURI], case by case. *)
Lemma CheckURI_cases (network : string -> Q -> get_outcome) uri t w :
  CheckURI network uri t w
  = (match network uri (2 # 1) with
     | Responded resp => Ok (status_code resp =? 200)
     | Failed MissingSchema => Ok false
     | Failed e => Raise (RequestsError e)
     end,
     add_get uri (2 # 1) w).
Proof.
  unfold CheckURI, requests_get. run.
  by destruct (network uri (2 # 1)) as [resp|[]].
Qed.

(** ** String concatenation and [join] *)

Section JoinFacts.

Lemma append_cons a (s t : string) : String a s +:+ t = String a (s +:+ t).
Proof. reflexivity. Qed.

Lemma append_nil_r (s : string) : s +:+ EmptyString = s.
Proof. induction s as [|a s IH]; [done|]. by rewrite append_cons, IH. Qed.

Lemma append_assoc (s1 s2 s3 : string) :
  (s1 +:+ s2) +:+ s3 = s1 +:+ s2 +:+ s3.
Proof. induction s1 as [|a s1 IH]; [done|]. by rewrite !append_cons, IH. Qed.

Lemma join_cons (sep : string) x (rest : list string) :
  rest <> [] -> join sep (x :: rest) = x +:+ sep +:+ join sep rest.
Proof. by destruct rest. Qed.

(** Everything from an element on is a suffix of the joined text. *)
Lemma join_suffix (sep : string) (before : list string) x after :
  exists pre, join sep (before ++ x :: after) = pre +:+ join sep (x :: after).
Proof.
  induction before as [|y before [pre IH]].
  - by exists EmptyString.
  - exists (y +:+ sep +:+ pre).
    change ((y :: before) ++ x :: after) with (y :: (before ++ x :: after)).
    rewrite join_cons by (by destruct before).
    by rewrite IH, !append_assoc.
Qed.

(** The joined text starts with its first element. *)
Lemma join_head (sep : string) x (after : list string) :
  exists post, join sep (x :: after) = x +:+ post.
Proof.
  destruct after as [|y after].
  - exists EmptyString. by rewrite append_nil_r.
  - by exists (sep +:+ join sep (y :: after)).
Qed.

(** Two elements of the list occur in the joined text in list order. *)
Lemma join_two_in_order (sep : string) (l1 l2 l3 : list string) x y :
  exists pre mid post,
    join sep (l1 ++ x :: l2 ++ y :: l3) = pre +:+ x +:+ mid +:+ y +:+ post.
Proof.
  destruct (join_suffix sep l1 x (l2 ++ y :: l3)) as [pre ->].
  destruct (join_suffix sep l2 y l3) as [mid Hmid].
  destruct (join_head sep y l3) as [post Hpost].
  exists pre, (sep +:+ mid), post.
  rewrite join_cons by (by destruct l2).
  by rewrite Hmid, Hpost, !append_assoc.
Qed.

End JoinFacts.

(** ** The GET handler *)

Section GetFacts.

Variable unquote : string -> string.

Lemma line_of_ok (k u : string) (w : world) :
  memory w !! k = Some u -> line_of k w = (Ok (entry_line k u), w).
Proof.
  intros Hu. unfold line_of, memory_getitem, Store.Lookup. run. by rewrite Hu.
Qed.

(** The lines of the listing, computed from the sorted keys: reading the
    entries of keys that are all present cannot raise and changes
    nothing. *)
Lemma mapM_line_of_keys (keys : list string) (w : world) :
  Forall (fun k => is_Some (memory w !! k)) keys ->
  mapM line_of keys w
  = (Ok ((fun k => entry_line k (default EmptyString (memory w !! k))) <$> keys),
     w).
Proof.
  induction 1 as [|k keys [u Hu] _ IH]; [done|].
  cbn [mapM]. rewrite (bind_ok _ _ _ _ _ (line_of_ok k u w Hu)).
  rewrite (bind_ok _ _ _ _ _ IH). by rewrite fmap_cons, Hu.
Qed.

(** A GET for a name: the three ways it can go. *)
Lemma do_GET_named path w :
  truthy (unquote (slice_from_1 path)) = true ->
  do_GET unquote path w
  = match memory w !! unquote (slice_from_1 path) with
    | Some uri =>
        if latin1_encodable uri then
          (Ok tt,
           mkWorld (memory w)
             (wire w ++ [send_response 303;
                         send_header "Content-type" "text/html; charset=utf-8";
                         send_header "Location" uri;
                         end_headers])
             (stdout w ++ ["Redirect: ln 87"]) (gets w))
        else
          (Raise UnicodeEncodeError,
           mkWorld (memory w)
             (wire w ++ [send_response 303;
                         send_header "Content-type" "text/html; charset=utf-8"])
             (stdout w ++ ["Redirect: ln 87"]) (gets w))
    | None =>
        (Ok tt,
         mkWorld (memory w)
           (wire w ++ [send_response 404;
                       send_header "Content-type" "text/plain; charset=utf-8";
                       end_headers;
                       wfile_write ("I don't know '"
                                    +:+ unquote (slice_from_1 path) +:+ "'.")])
           (stdout w ++ ["Unknown name: ln 94"]) (gets w))
    end.
Proof.
  intros Hname. unfold do_GET. rewrite Hname. unfold Store.Lookup.
  destruct (memory w !! unquote (slice_from_1 path)) as [uri|] eqn:Hlook.
  - unfold_calls. rewrite bool_decide_eq_true_2 by eauto.
    unfold memory_getitem, Store.Lookup. run. rewrite Hlook.
    destruct (latin1_encodable uri); by tidy.
  - unfold_calls.
    rewrite bool_decide_eq_false_2 by (rewrite Hlook; by intros [? ?]).
    run. by tidy.
Qed.

(** A GET for the root path. *)
Lemma do_GET_root_page path w :
  truthy (unquote (slice_from_1 path)) = false ->
  do_GET unquote path w
  = (Ok tt,
     mkWorld (memory w)
       (wire w
        ++ [send_response 200;
            send_header "Content-type" "text/html";
            end_headers;
            wfile_write
              (form_format
                 (join newline
                    ((fun k =>
                        entry_line k (default EmptyString (memory w !! k)))
                     <$> Store.sorted_keys (memory w))))])
       (stdout w ++ ["Root path: ln 101"]) (gets w)).
Proof.
  intros Hname. unfold do_GET. rewrite Hname. run.
  pose proof (mapM_line_of_keys (Store.sorted_keys (memory w))
                (add_wire end_headers
                   (add_wire (send_header "Content-type" "text/html")
                      (add_wire (send_response 200)
                         (add_stdout "Root path: ln 101" w))))) as Hrun.
  cbn [add_wire add_stdout memory wire stdout gets] in Hrun.
  rewrite Hrun; [by tidy|].
  apply Forall_forall. intros k Hk. by apply sorted_keys_spec.
Qed.

Lemma do_GET_memory path w : memory (do_GET unquote path w).2 = memory w.
Proof.
  destruct (truthy (unquote (slice_from_1 path))) eqn:Hname.
  - rewrite (do_GET_named path w Hname).
    destruct (memory w !! unquote (slice_from_1 path)) as [uri|]; [|done].
    by destruct (latin1_encodable uri).
  - by rewrite (do_GET_root_page path w Hname).
Qed.

(** The text that [join] makes of the lines of a list of entries. *)
Lemma join_entry_lines (entries : list (string * string)) :
  join newline ((fun e => entry_line e.1 e.2) <$> entries)
  = listing_text entries.
Proof.
  induction entries as [|[k u] entries IH]; [done|].
  destruct entries as [|e entries]; [done|].
  rewrite fmap_cons, join_cons by done. rewrite IH.
  unfold entry_line. cbn [fst snd listing_text].
  by rewrite !append_assoc.
Qed.

End GetFacts.

(** C4. With a stored URI that has a character above U+00FF, a GET for its
    name does not redirect: [send_header('Location', ...)] raises
    [UnicodeEncodeError] once the status line and the first header are in
    the buffer, so the handler raises and nothing reaches the client. *)
Theorem do_GET_redirect_raises_UnicodeEncodeError
    (unquote : string -> string) path w uri :
  truthy (unquote (slice_from_1 path)) = true ->
  memory w !! unquote (slice_from_1 path) = Some uri ->
  latin1_encodable uri = false ->
  do_GET unquote path w
  = (Raise UnicodeEncodeError,
     mkWorld (memory w)
       (wire w ++ [send_response 303;
                   send_header "Content-type" "text/html; charset=utf-8"])
       (stdout w ++ ["Redirect: ln 87"]) (gets w))
  /\ delivered [send_response 303;
                send_header "Content-type" "text/html; charset=utf-8"] = [].
Proof.
  intros Hname Hlook Huri. split; [|done].
  by rewrite (do_GET_named unquote path w Hname), Hlook, Huri.
Qed.

Lemma do_GET_redirect_raises_UnicodeEncodeError_witness :
  do_GET Demo.unquote "/x"
    (do_POST Demo.parse_qs Demo.network
       ("longuri=http://up.example/" +:+ Demo.zhong +:+ "&shortname=x")
       Demo.start).2
  = (Raise UnicodeEncodeError,
     mkWorld
       (<["x" := "http://up.example/" +:+ Demo.zhong]> ∅)
       ([send_response 303;
         send_header "Content-type" "text/html; charset=utf-8";
         send_header "Location" "/";
         end_headers]
        ++ [send_response 303;
            send_header "Content-type" "text/html; charset=utf-8"])
       ([] ++ ["Redirect: ln 87"])
       [("http://up.example/" +:+ Demo.zhong, 2 # 1)])
  /\ delivered [send_response 303;
                send_header "Content-type" "text/html; charset=utf-8"] = [].
Proof.
  apply (do_GET_redirect_raises_UnicodeEncodeError Demo.unquote "/x"
           (do_POST Demo.parse_qs Demo.network
              ("longuri=http://up.example/" +:+ Demo.zhong +:+ "&shortname=x")
              Demo.start).2
           ("http://up.example/" +:+ Demo.zhong));
    reflexivity.
Defined.

(** C5. A GET whose decoded name is empty is answered with 200 and a page
    of type [text/html]: the template with, in place of its field, one
    line [alias : uri] per stored entry, the lines separated by line feeds
    and the aliases strictly ascending and without repetition;
    [requests.get] is not called and the store is left as it was. *)
Theorem do_GET_root_listing (unquote : string -> string) path w :
  truthy (unquote (slice_from_1 path)) = false ->
  exists entries : list (string * string),
    do_GET unquote path w
    = (Ok tt,
       mkWorld (memory w)
         (wire w ++ [send_response 200;
                     send_header "Content-type" "text/html";
                     end_headers;
                     wfile_write
                       (form_head +:+ listing_text entries +:+ form_tail)])
         (stdout w ++ ["Root path: ln 101"])
         (gets w))
    /\ (forall k u, (k, u) ∈ entries <-> memory w !! k = Some u)
    /\ StronglySorted str_lt entries.*1
    /\ NoDup entries.*1.
Proof.
  intros Hname.
  destruct (sorted_keys_spec (memory w)) as (Hsorted & Hnodup & Hdom).
  exists ((fun k => (k, default EmptyString (memory w !! k)))
          <$> Store.sorted_keys (memory w)).
  assert (Hkeys : ((fun k => (k, default EmptyString (memory w !! k)))
                   <$> Store.sorted_keys (memory w)).*1
                  = Store.sorted_keys (memory w)).
  { generalize (Store.sorted_keys (memory w)). intros l.
    induction l as [|k l IH]; [done|]. rewrite !fmap_cons. cbn [fst].
    by rewrite IH. }
  rewrite Hkeys. split_and!; [|  |done|done].
  - rewrite (do_GET_root_page unquote path w Hname).
    rewrite <- join_entry_lines, <- list_fmap_compose. done.
  - intros k u. rewrite list_elem_of_fmap. split.
    + intros (k' & [= -> ->] & Hin). apply Hdom in Hin as [u Hu].
      by rewrite Hu.
    + intros Hlook. exists k. rewrite Hlook. split; [done|].
      apply Hdom. eauto.
Qed.

Lemma do_GET_root_listing_witness :
  exists entries : list (string * string),
    do_GET Demo.unquote "/" Demo.two_bookmarks
    = (Ok tt,
       mkWorld (memory Demo.two_bookmarks)
         (wire Demo.two_bookmarks
          ++ [send_response 200;
              send_header "Content-type" "text/html";
              end_headers;
              wfile_write
                (form_head +:+ listing_text entries +:+ form_tail)])
         (stdout Demo.two_bookmarks ++ ["Root path: ln 101"])
         (gets Demo.two_bookmarks))
    /\ (forall k u,
          (k, u) ∈ entries <-> memory Demo.two_bookmarks !! k = Some u)
    /\ StronglySorted str_lt entries.*1
    /\ NoDup entries.*1.
Proof.
  apply (do_GET_root_listing Demo.unquote "/" Demo.two_bookmarks). reflexivity.
Defined.

(** ** The POST handler *)

Section PostFacts.

Variable parse_qs : string -> gmap string (list string).
Variable network : string -> Q -> get_outcome.

Lemma missing_params_cases (params : gmap string (list string)) :
  missing_params params
  = match params !! "longuri", params !! "shortname" with
    | None, None => ["longuri"; "shortname"]
    | None, Some _ => ["longuri"]
    | Some _, None => ["shortname"]
    | Some _, Some _ => []
    end.
Proof.
  unfold missing_params, expected_params.
  rewrite !filter_cons, filter_nil.
  destruct (params !! "longuri"), (params !! "shortname");
    repeat case_decide; done.
Qed.

(** With a field missing, the handler sends the 400 and then raises. *)
Lemma do_POST_missing body w :
  missing_params (parse_qs body) <> [] ->
  exists e,
    do_POST parse_qs network body w
    = (Raise e,
       add_wire
         (send_error 400
            ("Required parameters missing: "
             +:+ join ", " (quoted <$> missing_params (parse_qs body))))
         w)
    /\ e = match parse_qs body !! "longuri" with
           | None => KeyError "longuri"
           | Some [] => IndexError
           | Some (_ :: _) =>
               match parse_qs body !! "shortname" with
               | None => KeyError "shortname"
               | Some _ => IndexError
               end
           end.
Proof.
  intros Hmissing. unfold do_POST.
  rewrite bool_decide_eq_true_2 by done.
  revert Hmissing. rewrite missing_params_cases. unfold params_getitem.
  destruct (parse_qs body !! "longuri") as [[|l ls]|];
    destruct (parse_qs body !! "shortname") as [[|s ss]|];
    intros Hmissing; try done; eexists; (split; [by run|done]).
Qed.

(** With both fields present and non-empty, the handler is [CheckURI]
    followed by one of its two answers. *)
Lemma do_POST_present body w longuri lrest shortname srest :
  parse_qs body !! "longuri" = Some (longuri :: lrest) ->
  parse_qs body !! "shortname" = Some (shortname :: srest) ->
  do_POST parse_qs network body w
  = match CheckURI network longuri CheckURI_default_timeout w with
    | (Ok true, w1) =>
        (Ok tt,
         mkWorld (Store.Insert shortname longuri (memory w1))
           (wire w1 ++ [send_response 303;
                        send_header "Content-type" "text/html; charset=utf-8";
                        send_header "Location" "/";
                        end_headers])
           (stdout w1) (gets w1))
    | (Ok false, w1) =>
        if latin1_encodable longuri
        then (Ok tt,
              add_wire (send_error 404 ("Bad URI provided: " +:+ longuri)) w1)
        else (Raise UnicodeEncodeError, w1)
    | (Raise e, w1) => (Raise e, w1)
    end.
Proof.
  intros Hl Hs. unfold do_POST. rewrite missing_params_cases, Hl, Hs.
  rewrite bool_decide_eq_false_2 by (by intros []).
  unfold params_getitem, first_item. rewrite Hl, Hs. unfold_calls.
  destruct (CheckURI network longuri CheckURI_default_timeout w)
    as [[[]|e] w1]; [by run; tidy| |done].
  rewrite latin1_encodable_app. eval_latin1.
  by destruct (latin1_encodable longuri).
Qed.

End PostFacts.

(** C2. With [longuri] missing, the handler sends the 400 and then still
    evaluates [params["longuri"]], which raises [KeyError]; with only
    [shortname] missing, it sends the 400, reads the first [longuri] value
    and then raises on [params["shortname"]]. *)
Theorem do_POST_reads_fields_after_400
    (parse_qs : string -> gmap string (list string))
    (network : string -> Q -> get_outcome) body w :
  (parse_qs body !! "longuri" = None ->
   exists message,
     do_POST parse_qs network body w
     = (Raise (KeyError "longuri"), add_wire (send_error 400 message) w))
  /\ (forall longuri lrest,
        parse_qs body !! "longuri" = Some (longuri :: lrest) ->
        parse_qs body !! "shortname" = None ->
        exists message,
          do_POST parse_qs network body w
          = (Raise (KeyError "shortname"), add_wire (send_error 400 message) w)).
Proof.
  split.
  - intros Hl.
    destruct (do_POST_missing parse_qs network body w) as (e & Hrun & He).
    { rewrite missing_params_cases, Hl. by destruct (_ !! "shortname"). }
    rewrite Hl in He. subst e. eauto.
  - intros longuri lrest Hl Hs.
    destruct (do_POST_missing parse_qs network body w) as (e & Hrun & He).
    { by rewrite missing_params_cases, Hl, Hs. }
    rewrite Hl, Hs in He. subst e. eauto.
Qed.

Lemma do_POST_reads_fields_after_400_witness :
  (exists message,
     do_POST Demo.parse_qs Demo.network "shortname=x" Demo.start
     = (Raise (KeyError "longuri"),
        add_wire (send_error 400 message) Demo.start))
  /\ (exists message,
        do_POST Demo.parse_qs Demo.network "longuri=http://up.example/"
          Demo.start
        = (Raise (KeyError "shortname"),
           add_wire (send_error 400 message) Demo.start)).
Proof.
  split.
  - apply (proj1 (do_POST_reads_fields_after_400 Demo.parse_qs Demo.network
                    "shortname=x" Demo.start)).
    reflexivity.
  - apply (proj2 (do_POST_reads_fields_after_400 Demo.parse_qs Demo.network
                    "longuri=http://up.example/" Demo.start)
             "http://up.example/" []); reflexivity.
Defined.

(** C3. With both fields present and a check that returns false, a long
    URI that has a character above U+00FF is not answered with the 404:
    [send_error] raises [UnicodeEncodeError] on the message that names it,
    so the handler raises and sends nothing. *)
Theorem do_POST_404_raises_UnicodeEncodeError
    (parse_qs : string -> gmap string (list string))
    (network : string -> Q -> get_outcome)
    body w longuri lrest shortname srest w1 :
  parse_qs body !! "longuri" = Some (longuri :: lrest) ->
  parse_qs body !! "shortname" = Some (shortname :: srest) ->
  CheckURI network longuri CheckURI_default_timeout w = (Ok false, w1) ->
  latin1_encodable longuri = false ->
  do_POST parse_qs network body w
  = (Raise UnicodeEncodeError,
     mkWorld (memory w) (wire w) (stdout w) (gets w1)).
Proof.
  intros Hl Hs Hcheck Huri.
  rewrite (do_POST_present parse_qs network body w _ _ _ _ Hl Hs), Hcheck, Huri.
  by apply CheckURI_world in Hcheck as ->.
Qed.

Lemma do_POST_404_raises_UnicodeEncodeError_witness :
  do_POST Demo.parse_qs Demo.network
    ("longuri=" +:+ Demo.zhong +:+ "&shortname=x") Demo.start
  = (Raise UnicodeEncodeError,
     mkWorld (memory Demo.start) (wire Demo.start) (stdout Demo.start)
       (gets (add_get Demo.zhong (2 # 1) Demo.start))).
Proof.
  apply (do_POST_404_raises_UnicodeEncodeError Demo.parse_qs Demo.network
           ("longuri=" +:+ Demo.zhong +:+ "&shortname=x") Demo.start
           Demo.zhong [] "x" []); reflexivity.
Defined.

(** C7. When a field is missing, what the handler sends is one 400 error
    whose message names the missing fields and no others, each between
    double quotes (character 34), separated by a comma and a space,
    [longuri] first. *)
Theorem do_POST_400_message
    (parse_qs : string -> gmap string (list string))
    (network : string -> Q -> get_outcome) body w :
  (parse_qs body !! "longuri" = None ->
   parse_qs body !! "shortname" = None ->
   wire (do_POST parse_qs network body w).2
   = wire w
     ++ [send_error 400
           ("Required parameters missing: "
            +:+ String "034"%char
                  ("longuri"
                   +:+ String "034"%char
                         (", "
                          +:+ String "034"%char
                                ("shortname"
                                 +:+ String "034"%char EmptyString))))])
  /\ (parse_qs body !! "longuri" = None ->
      is_Some (parse_qs body !! "shortname") ->
      wire (do_POST parse_qs network body w).2
      = wire w
        ++ [send_error 400
              ("Required parameters missing: "
               +:+ String "034"%char
                     ("longuri" +:+ String "034"%char EmptyString))])
  /\ (is_Some (parse_qs body !! "longuri") ->
      parse_qs body !! "shortname" = None ->
      wire (do_POST parse_qs network body w).2
      = wire w
        ++ [send_error 400
              ("Required parameters missing: "
               +:+ String "034"%char
                     ("shortname" +:+ String "034"%char EmptyString))]).
Proof.
  split_and!.
  - intros Hl Hs.
    destruct (do_POST_missing parse_qs network body w) as (e & Hrun & _).
    { by rewrite missing_params_cases, Hl, Hs. }
    by rewrite Hrun, missing_params_cases, Hl, Hs.
  - intros Hl [vs Hs].
    destruct (do_POST_missing parse_qs network body w) as (e & Hrun & _).
    { by rewrite missing_params_cases, Hl, Hs. }
    by rewrite Hrun, missing_params_cases, Hl, Hs.
  - intros [vl Hl] Hs.
    destruct (do_POST_missing parse_qs network body w) as (e & Hrun & _).
    { by rewrite missing_params_cases, Hl, Hs. }
    by rewrite Hrun, missing_params_cases, Hl, Hs.
Qed.

Lemma do_POST_400_message_witness :
  wire (do_POST Demo.parse_qs Demo.network EmptyString Demo.start).2
  = wire Demo.start
    ++ [send_error 400
          ("Required parameters missing: "
           +:+ String "034"%char
                 ("longuri"
                  +:+ String "034"%char
                        (", "
                         +:+ String "034"%char
                               ("shortname"
                                +:+ String "034"%char EmptyString))))]
  /\ wire (do_POST Demo.parse_qs Demo.network "shortname=x" Demo.start).2
     = wire Demo.start
       ++ [send_error 400
             ("Required parameters missing: "
              +:+ String "034"%char
                    ("longuri" +:+ String "034"%char EmptyString))]
  /\ wire (do_POST Demo.parse_qs Demo.network "longuri=http://up.example/"
             Demo.start).2
     = wire Demo.start
       ++ [send_error 400
             ("Required parameters missing: "
              +:+ String "034"%char
                    ("shortname" +:+ String "034"%char EmptyString))].
Proof.
  split_and!.
  - apply (proj1 (do_POST_400_message Demo.parse_qs Demo.network
                    EmptyString Demo.start)); reflexivity.
  - apply (proj1 (proj2 (do_POST_400_message Demo.parse_qs Demo.network
                           "shortname=x" Demo.start)));
      [reflexivity|by eexists].
  - apply (proj2 (proj2 (do_POST_400_message Demo.parse_qs Demo.network
                           "longuri=http://up.example/" Demo.start)));
      [by eexists|reflexivity].
Defined.

(** C10. No GET changes the store, and a POST changes it only by storing
    the submitted pair after [CheckURI] has returned true for its long
    URI. *)
Theorem store_changes_only_on_checked_POST
    (unquote : string -> string)
    (parse_qs : string -> gmap string (list string))
    (network : string -> Q -> get_outcome) :
  (forall path w, memory (do_GET unquote path w).2 = memory w)
  /\ (forall body w,
        memory (do_POST parse_qs network body w).2 = memory w
        \/ exists longuri lrest shortname srest w1,
             parse_qs body !! "longuri" = Some (longuri :: lrest)
             /\ parse_qs body !! "shortname" = Some (shortname :: srest)
             /\ CheckURI network longuri CheckURI_default_timeout w
                = (Ok true, w1)
             /\ memory (do_POST parse_qs network body w).2
                = Store.Insert shortname longuri (memory w)).
Proof.
  split; [apply do_GET_memory|]. intros body w.
  destruct (decide (missing_params (parse_qs body) = [])) as [Hnone|Hsome].
  - rewrite missing_params_cases in Hnone.
    destruct (parse_qs body !! "longuri") as [[|longuri lrest]|] eqn:Hl;
      destruct (parse_qs body !! "shortname") as [[|shortname srest]|] eqn:Hs;
      try done.
    1-3: left; unfold do_POST; rewrite missing_params_cases, Hl, Hs;
         unfold params_getitem; rewrite Hl, ?Hs; by run.
    rewrite (do_POST_present parse_qs network body w _ _ _ _ Hl Hs).
    destruct (CheckURI network longuri CheckURI_default_timeout w)
      as [[[]|e] w1] eqn:Hcheck;
      pose proof (CheckURI_world _ _ _ _ _ _ Hcheck) as ->.
    + right. by exists longuri, lrest, shortname, srest, (add_get longuri (2 # 1) w).
    + left. by destruct (latin1_encodable longuri).
    + by left.
  - left. destruct (do_POST_missing parse_qs network body w Hsome)
      as (e & -> & _). done.
Qed.

(** * Further properties of the handlers *)


(** X1. [CheckURI] returns True only for a URI whose GET came back with
    status 200. *)
Theorem CheckURI_True_only_for_200
    (network : string -> Q -> get_outcome) uri t w w' :
  CheckURI network uri t w = (Ok true, w') ->
  answers_200 network uri.
Proof.
  rewrite CheckURI_cases. intros [= Hb _]. unfold answers_200.
  destruct (network uri (2 # 1)) as [resp|[]]; try done.
  exists resp. split; [done|]. apply Z.eqb_eq. congruence.
Qed.

Lemma CheckURI_True_only_for_200_witness :
  answers_200 Demo.network "http://up.example/".
Proof.
  apply (CheckURI_True_only_for_200 Demo.network "http://up.example/"
           CheckURI_default_timeout Demo.start
           (add_get "http://up.example/" (2 # 1) Demo.start)).
  reflexivity.
Defined.

(** X2. [CheckURI] returns False exactly when the GET came back with a
    status other than 200 or [requests.get] raised [MissingSchema]. *)
Theorem CheckURI_False_iff
    (network : string -> Q -> get_outcome) uri t w :
  CheckURI network uri t w = (Ok false, add_get uri (2 # 1) w)
  <-> (exists resp, network uri (2 # 1) = Responded resp
                    /\ status_code resp <> 200)
      \/ network uri (2 # 1) = Failed MissingSchema.
Proof.
  rewrite CheckURI_cases. split.
  - intros [= Hb]. destruct (network uri (2 # 1)) as [resp|[]]; try done.
    + left. exists resp. split; [done|]. apply Z.eqb_neq. congruence.
    + by right.
  - intros [(resp & -> & Hcode)| ->]; [|done].
    by rewrite (proj2 (Z.eqb_neq _ _) Hcode).
Qed.

Lemma CheckURI_False_iff_witness :
  CheckURI Demo.network "no-scheme" CheckURI_default_timeout Demo.start
  = (Ok false, add_get "no-scheme" (2 # 1) Demo.start)
  /\ CheckURI Demo.network "http://down.example/" CheckURI_default_timeout
       Demo.start
     = (Ok false, add_get "http://down.example/" (2 # 1) Demo.start).
Proof.
  split.
  - apply (proj2 (CheckURI_False_iff Demo.network "no-scheme"
                    CheckURI_default_timeout Demo.start)).
    right. reflexivity.
  - apply (proj2 (CheckURI_False_iff Demo.network "http://down.example/"
                    CheckURI_default_timeout Demo.start)).
    left. exists Demo.error_response. split; [reflexivity|discriminate].
Defined.

(** ** [do_POST], case by case *)

Section PostShapes.

Variable parse_qs : string -> gmap string (list string).
Variable network : string -> Q -> get_outcome.

(** A field that is present with an empty list of values makes [[0]]
    raise before anything is sent or checked. *)
Lemma do_POST_empty_values body w :
  missing_params (parse_qs body) = [] ->
  (parse_qs body !! "longuri" = Some []
   \/ parse_qs body !! "shortname" = Some []) ->
  do_POST parse_qs network body w = (Raise IndexError, w).
Proof.
  rewrite missing_params_cases. intros Hnone Hempty. unfold do_POST.
  rewrite missing_params_cases.
  destruct (parse_qs body !! "longuri") as [[|l lr]|] eqn:Hl;
    destruct (parse_qs body !! "shortname") as [[|s sr]|] eqn:Hs;
    try done; try (by destruct Hempty);
    rewrite bool_decide_eq_false_2 by (by intros []);
    unfold params_getitem; rewrite Hl, ?Hs; by run.
Qed.

(** The ways a POST can go: a 400 followed by an exception, an exception
    on an empty list of values, a stored pair and a 303, a 404, or an
    exception after the check (from [requests.get], or from [send_error]
    on a long URI without a latin-1 encoding). *)
Lemma do_POST_shapes body w :
  (exists e message,
      missing_params (parse_qs body) <> []
      /\ do_POST parse_qs network body w
         = (Raise e, add_wire (send_error 400 message) w))
  \/ do_POST parse_qs network body w = (Raise IndexError, w)
  \/ exists longuri lrest shortname srest,
       parse_qs body !! "longuri" = Some (longuri :: lrest)
       /\ parse_qs body !! "shortname" = Some (shortname :: srest)
       /\ ((answers_200 network longuri
            /\ do_POST parse_qs network body w
               = (Ok tt,
                  mkWorld (Store.Insert shortname longuri (memory w))
                    (wire w
                     ++ [send_response 303;
                         send_header "Content-type" "text/html; charset=utf-8";
                         send_header "Location" "/";
                         end_headers])
                    (stdout w) (gets w ++ [(longuri, 2 # 1)])))
           \/ do_POST parse_qs network body w
              = (Ok tt,
                 mkWorld (memory w)
                   (wire w
                    ++ [send_error 404 ("Bad URI provided: " +:+ longuri)])
                   (stdout w) (gets w ++ [(longuri, 2 # 1)]))
           \/ exists e,
                do_POST parse_qs network body w
                = (Raise e, add_get longuri (2 # 1) w)).
Proof.
  destruct (decide (missing_params (parse_qs body) = [])) as [Hnone|Hsome].
  - destruct (parse_qs body !! "longuri") as [[|longuri lrest]|] eqn:Hl.
    + right; left. apply do_POST_empty_values; auto.
    + destruct (parse_qs body !! "shortname") as [[|shortname srest]|] eqn:Hs.
      * right; left. apply do_POST_empty_values; auto.
      * right; right. exists longuri, lrest, shortname, srest.
        split_and!; [done..|].
        rewrite (do_POST_present parse_qs network body w _ _ _ _ Hl Hs).
        rewrite CheckURI_cases. unfold answers_200.
        destruct (network longuri (2 # 1)) as [resp|e].
        -- destruct (status_code resp =? 200) eqn:Hcode.
           ++ left. split; [|done]. exists resp.
              split; [done|]. by apply Z.eqb_eq.
           ++ destruct (latin1_encodable longuri);
                [by right; left|by right; right; eexists].
        -- destruct e; try (by right; right; eexists).
           destruct (latin1_encodable longuri);
             [by right; left|by right; right; eexists].
      * rewrite missing_params_cases, Hl, Hs in Hnone. done.
    + rewrite missing_params_cases, Hl in Hnone.
      by destruct (parse_qs body !! "shortname").
  - left. destruct (do_POST_missing parse_qs network body w Hsome)
      as (e & Hrun & _). eauto.
Qed.

End PostShapes.

(** X3. When [requests.get] raises anything but [MissingSchema] for the
    submitted long URI, the POST handler raises that exception itself: it
    sends nothing to the client and leaves the store alone. *)
Theorem do_POST_transport_error_sends_nothing
    (parse_qs : string -> gmap string (list string))
    (network : string -> Q -> get_outcome)
    body w longuri lrest shortname srest e :
  parse_qs body !! "longuri" = Some (longuri :: lrest) ->
  parse_qs body !! "shortname" = Some (shortname :: srest) ->
  network longuri (2 # 1) = Failed e ->
  e <> MissingSchema ->
  do_POST parse_qs network body w
  = (Raise (RequestsError e),
     mkWorld (memory w) (wire w) (stdout w) (gets w ++ [(longuri, 2 # 1)])).
Proof.
  intros Hl Hs Hnet Hne.
  rewrite (do_POST_present parse_qs network body w _ _ _ _ Hl Hs).
  rewrite CheckURI_cases, Hnet. by destruct e.
Qed.

Lemma do_POST_transport_error_sends_nothing_witness :
  do_POST Demo.parse_qs Demo.network
    "longuri=http://slow.example/&shortname=x" Demo.start
  = (Raise (RequestsError ReadTimeout),
     mkWorld (memory Demo.start) (wire Demo.start) (stdout Demo.start)
       (gets Demo.start ++ [("http://slow.example/", 2 # 1)])).
Proof.
  apply (do_POST_transport_error_sends_nothing Demo.parse_qs Demo.network
           "longuri=http://slow.example/&shortname=x" Demo.start
           "http://slow.example/" [] "x" []);
    [reflexivity|reflexivity|reflexivity|discriminate].
Defined.



(** X5. A POST with a field missing never gets as far as the network:
    [requests.get] is not called and the store is not touched. *)
Theorem do_POST_missing_field_no_network
    (parse_qs : string -> gmap string (list string))
    (network : string -> Q -> get_outcome) body w :
  parse_qs body !! "longuri" = None \/ parse_qs body !! "shortname" = None ->
  gets (do_POST parse_qs network body w).2 = gets w
  /\ memory (do_POST parse_qs network body w).2 = memory w.
Proof.
  intros Hmissing.
  destruct (do_POST_missing parse_qs network body w) as (e & -> & _); [|done].
  rewrite missing_params_cases.
  destruct Hmissing as [-> | ->]; [by destruct (_ !! "shortname")|].
  by destruct (_ !! "longuri").
Qed.

Lemma do_POST_missing_field_no_network_witness :
  gets (do_POST Demo.parse_qs Demo.network "longuri=http://up.example/"
          Demo.start).2 = gets Demo.start
  /\ memory (do_POST Demo.parse_qs Demo.network "longuri=http://up.example/"
               Demo.start).2 = memory Demo.start.
Proof.
  apply (do_POST_missing_field_no_network Demo.parse_qs Demo.network
           "longuri=http://up.example/" Demo.start).
  right. reflexivity.
Defined.

(** X6. One POST calls [requests.get] at most once, and then for the
    first [longuri] value with a timeout of two seconds. *)
Theorem do_POST_at_most_one_get
    (parse_qs : string -> gmap string (list string))
    (network : string -> Q -> get_outcome) body w :
  gets (do_POST parse_qs network body w).2 = gets w
  \/ exists longuri lrest,
       parse_qs body !! "longuri" = Some (longuri :: lrest)
       /\ gets (do_POST parse_qs network body w).2
          = gets w ++ [(longuri, 2 # 1)].
Proof.
  destruct (do_POST_shapes parse_qs network body w)
    as [(e & message & _ & ->)
       |[-> |(longuri & lrest & shortname & srest & Hl & _ & Hrun)]];
    [by left|by left|].
  right. exists longuri, lrest. split; [done|].
  by destruct Hrun as [[_ ->]|[-> |[e ->]]].
Qed.

(** X7. A POST sends at most one response, with status 303, 400 or 404;
    when the handler returns without raising it has sent exactly one. *)
Theorem do_POST_one_response
    (parse_qs : string -> gmap string (list string))
    (network : string -> Q -> get_outcome) body w :
  exists sent : list wire_event,
    wire (do_POST parse_qs network body w).2 = wire w ++ sent
    /\ (statuses sent = [] \/ statuses sent = [303]
        \/ statuses sent = [400] \/ statuses sent = [404])
    /\ ((do_POST parse_qs network body w).1 = Ok tt ->
        statuses sent = [303] \/ statuses sent = [404]).
Proof.
  destruct (do_POST_shapes parse_qs network body w)
    as [(e & message & _ & ->)
       |[-> |(longuri & lrest & shortname & srest & _ & _
              & [[_ ->]|[-> |[e ->]]])]];
    cbn [snd fst wire add_wire add_get].
  - exists [send_error 400 message]. split_and!; [done|auto|done].
  - exists []. split_and!; [by rewrite app_nil_r|auto|done].
  - eexists. split_and!; [done|auto|auto].
  - eexists. split_and!; [done|auto|auto].
  - exists []. split_and!; [by rewrite app_nil_r|auto|done].
Qed.

Lemma do_POST_one_response_witness :
  exists sent : list wire_event,
    wire (do_POST Demo.parse_qs Demo.network
            "longuri=http://up.example/&shortname=x" Demo.start).2
    = wire Demo.start ++ sent
    /\ (statuses sent = [303] \/ statuses sent = [404]).
Proof.
  destruct (do_POST_one_response Demo.parse_qs Demo.network
              "longuri=http://up.example/&shortname=x" Demo.start)
    as (sent & Hwire & _ & Hok).
  exists sent. split; [exact Hwire|]. apply Hok. reflexivity.
Defined.

(** X8. A POST changes the store at no name other than the first
    [shortname] value, and what it stores there is the first [longuri]
    value. *)
Theorem do_POST_changes_only_submitted_name
    (parse_qs : string -> gmap string (list string))
    (network : string -> Q -> get_outcome) body w (name : string) :
  memory (do_POST parse_qs network body w).2 !! name <> memory w !! name ->
  exists longuri lrest srest,
    parse_qs body !! "longuri" = Some (longuri :: lrest)
    /\ parse_qs body !! "shortname" = Some (name :: srest)
    /\ memory (do_POST parse_qs network body w).2 !! name = Some longuri.
Proof.
  destruct (do_POST_shapes parse_qs network body w)
    as [(e & message & _ & ->)
       |[-> |(longuri & lrest & shortname & srest & Hl & Hs
              & [[_ ->]|[-> |[e ->]]])]];
    cbn [snd memory add_wire add_get]; try done.
  unfold Store.Insert. intros Hchanged.
  destruct (decide (shortname = name)) as [->|Hne].
  - exists longuri, lrest, srest. by rewrite lookup_insert_eq.
  - by rewrite lookup_insert_ne in Hchanged.
Qed.

Lemma do_POST_changes_only_submitted_name_witness :
  exists longuri lrest srest,
    Demo.parse_qs "longuri=http://up.example/&shortname=x" !! "longuri"
    = Some (longuri :: lrest)
    /\ Demo.parse_qs "longuri=http://up.example/&shortname=x" !! "shortname"
       = Some ("x" :: srest)
    /\ memory (do_POST Demo.parse_qs Demo.network
                 "longuri=http://up.example/&shortname=x" Demo.start).2 !! "x"
       = Some longuri.
Proof.
  apply (do_POST_changes_only_submitted_name Demo.parse_qs Demo.network
           "longuri=http://up.example/&shortname=x" Demo.start "x").
  discriminate.
Defined.

(** X9. Neither handler ever removes a name: whatever was in the store
    before a request is still a key of the store after it. *)
Theorem known_names_stay_known
    (unquote : string -> string)
    (parse_qs : string -> gmap string (list string))
    (network : string -> Q -> get_outcome) w (name : string) :
  is_Some (memory w !! name) ->
  (forall path, is_Some (memory (do_GET unquote path w).2 !! name))
  /\ (forall body, is_Some (memory (do_POST parse_qs network body w).2 !! name)).
Proof.
  intros Hknown. split.
  - intros path. by rewrite do_GET_memory.
  - intros body.
    destruct (do_POST_shapes parse_qs network body w)
      as [(e & message & _ & ->)
         |[-> |(longuri & lrest & shortname & srest & _ & _
                & [[_ ->]|[-> |[e ->]]])]];
      cbn [snd memory add_wire add_get]; try done.
    unfold Store.Insert. rewrite lookup_insert. by case_decide.
Qed.

Lemma known_names_stay_known_witness :
  is_Some (memory (do_GET Demo.unquote "/up" one_bookmark).2 !! "up")
  /\ is_Some (memory (do_POST Demo.parse_qs Demo.network
                        "longuri=http://up.example/&shortname=up"
                        one_bookmark).2 !! "up").
Proof.
  destruct (known_names_stay_known Demo.unquote Demo.parse_qs Demo.network
              one_bookmark "up") as [Hget Hpost]; [by eexists|].
  split; [apply Hget|apply Hpost].
Defined.

(** X10. If every stored URI answers 200, so does every URI stored after
    a POST: nothing gets into the store unchecked. *)
Theorem do_POST_stores_only_checked_URIs
    (parse_qs : string -> gmap string (list string))
    (network : string -> Q -> get_outcome) body w :
  (forall name uri, memory w !! name = Some uri -> answers_200 network uri) ->
  forall name uri,
    memory (do_POST parse_qs network body w).2 !! name = Some uri ->
    answers_200 network uri.
Proof.
  intros Hinv name uri.
  destruct (do_POST_shapes parse_qs network body w)
    as [(e & message & _ & ->)
       |[-> |(longuri & lrest & shortname & srest & _ & _
              & [[Hok ->]|[-> |[e ->]]])]];
    cbn [snd memory add_wire add_get]; try apply Hinv.
  unfold Store.Insert. rewrite lookup_insert. case_decide.
  - by intros [= <-].
  - apply Hinv.
Qed.

Lemma do_POST_stores_only_checked_URIs_witness :
  answers_200 Demo.network "http://up.example/".
Proof.
  apply (do_POST_stores_only_checked_URIs Demo.parse_qs Demo.network
           "longuri=http://up.example/&shortname=x" one_bookmark)
    with (name := "x"); [|reflexivity].
  intros name uri. unfold one_bookmark, Store.Insert. cbn [memory].
  rewrite lookup_insert. case_decide; [|by rewrite lookup_empty].
  intros [= <-]. exists Demo.ok_response. split; reflexivity.
Defined.

(** X11. Of the form fields, a POST uses only the first value of
    [longuri] and the first value of [shortname]: two bodies that agree on
    these are handled identically. *)
Theorem do_POST_uses_first_values_only
    (parse_qs : string -> gmap string (list string))
    (network : string -> Q -> get_outcome)
    body1 body2 w longuri lrest1 lrest2 shortname srest1 srest2 :
  parse_qs body1 !! "longuri" = Some (longuri :: lrest1) ->
  parse_qs body1 !! "shortname" = Some (shortname :: srest1) ->
  parse_qs body2 !! "longuri" = Some (longuri :: lrest2) ->
  parse_qs body2 !! "shortname" = Some (shortname :: srest2) ->
  do_POST parse_qs network body1 w = do_POST parse_qs network body2 w.
Proof.
  intros Hl1 Hs1 Hl2 Hs2.
  rewrite (do_POST_present parse_qs network body1 w _ _ _ _ Hl1 Hs1).
  by rewrite (do_POST_present parse_qs network body2 w _ _ _ _ Hl2 Hs2).
Qed.

Lemma do_POST_uses_first_values_only_witness :
  do_POST Demo.parse_qs Demo.network
    "longuri=http://up.example/&shortname=x" Demo.start
  = do_POST Demo.parse_qs Demo.network
      "shortname=x&longuri=http://up.example/&longuri=http://down.example/&tag=t&shortname=y"
      Demo.start.
Proof.
  apply (do_POST_uses_first_values_only Demo.parse_qs Demo.network
           "longuri=http://up.example/&shortname=x"
           "shortname=x&longuri=http://up.example/&longuri=http://down.example/&tag=t&shortname=y"
           Demo.start "http://up.example/" [] ["http://down.example/"]
           "x" [] ["y"]); reflexivity.
Defined.

(** ** Order of the listing *)

Section GetShapes.

(** Two members of a strictly ascending list sit in it in their order. *)
Lemma ascending_split (l : list string) k1 k2 :
  StronglySorted str_lt l -> k1 ∈ l -> k2 ∈ l -> str_lt k1 k2 ->
  exists l1 l2 l3, l = l1 ++ k1 :: l2 ++ k2 :: l3.
Proof.
  intros Hsorted Hk1 Hk2 Hlt.
  apply list_elem_of_split in Hk1 as (l1 & rest & ->).
  apply elem_of_app in Hk2 as [Hk2|Hk2].
  - destruct (str_lt_irrefl k1). apply (str_lt_trans _ k2); [done|].
    apply (StronglySorted_app_1_elem_of str_lt l1 (k1 :: rest)); [done..|].
    apply list_elem_of_here.
  - apply elem_of_cons in Hk2 as [->|Hk2]; [by destruct (str_lt_irrefl k1)|].
    apply list_elem_of_split in Hk2 as (l2 & l3 & ->). by exists l1, l2, l3.
Qed.

End GetShapes.

(** X12. After a POST that stored a pair whose long URI has a latin-1
    encoding, a GET for the stored name is redirected to the stored long
    URI, whatever the name resolved to before. *)
Theorem POST_then_GET_redirects
    (unquote : string -> string)
    (parse_qs : string -> gmap string (list string))
    (network : string -> Q -> get_outcome)
    body path w longuri lrest shortname srest :
  parse_qs body !! "longuri" = Some (longuri :: lrest) ->
  parse_qs body !! "shortname" = Some (shortname :: srest) ->
  answers_200 network longuri ->
  latin1_encodable longuri = true ->
  unquote (slice_from_1 path) = shortname ->
  truthy shortname = true ->
  exists w1,
    do_POST parse_qs network body w = (Ok tt, w1)
    /\ do_GET unquote path w1
       = (Ok tt,
          mkWorld (memory w1)
            (wire w1 ++ [send_response 303;
                         send_header "Content-type" "text/html; charset=utf-8";
                         send_header "Location" longuri;
                         end_headers])
            (stdout w1 ++ ["Redirect: ln 87"]) (gets w1)).
Proof.
  intros Hl Hs (resp & Hnet & Hcode) Huri Hpath Hname.
  rewrite (do_POST_present parse_qs network body w _ _ _ _ Hl Hs).
  rewrite CheckURI_cases, Hnet, (proj2 (Z.eqb_eq _ _) Hcode).
  eexists. split; [done|].
  rewrite do_GET_named by (by rewrite Hpath).
  rewrite Hpath. cbn [memory]. unfold Store.Insert.
  by rewrite lookup_insert_eq, Huri.
Qed.

Lemma POST_then_GET_redirects_witness :
  exists w1,
    do_POST Demo.parse_qs Demo.network
      "longuri=http://up.example/&shortname=a" Demo.two_bookmarks
    = (Ok tt, w1)
    /\ do_GET Demo.unquote "/a" w1
       = (Ok tt,
          mkWorld (memory w1)
            (wire w1 ++ [send_response 303;
                         send_header "Content-type" "text/html; charset=utf-8";
                         send_header "Location" "http://up.example/";
                         end_headers])
            (stdout w1 ++ ["Redirect: ln 87"]) (gets w1)).
Proof.
  apply (POST_then_GET_redirects Demo.unquote Demo.parse_qs Demo.network
           "longuri=http://up.example/&shortname=a" "/a" Demo.two_bookmarks
           "http://up.example/" [] "a" []);
    try reflexivity.
  exists Demo.ok_response. split; reflexivity.
Defined.

(** X13. In the root page, the line of a stored name comes before the line
    of every stored name that is greater in the string order. *)
Theorem listing_in_ascending_order
    (unquote : string -> string) path w k1 u1 k2 u2 :
  truthy (unquote (slice_from_1 path)) = false ->
  memory w !! k1 = Some u1 ->
  memory w !! k2 = Some u2 ->
  str_lt k1 k2 ->
  exists page pre mid post,
    do_GET unquote path w
    = (Ok tt,
       mkWorld (memory w)
         (wire w ++ [send_response 200;
                     send_header "Content-type" "text/html";
                     end_headers;
                     wfile_write page])
         (stdout w ++ ["Root path: ln 101"]) (gets w))
    /\ page = pre +:+ (k1 +:+ " : " +:+ u1) +:+ mid +:+ (k2 +:+ " : " +:+ u2) +:+ post.
Proof.
  intros Hname Hk1 Hk2 Hlt.
  destruct (sorted_keys_spec (memory w)) as (Hsorted & _ & Hdom).
  destruct (ascending_split (Store.sorted_keys (memory w)) k1 k2)
    as (l1 & l2 & l3 & Hkeys); [done|by apply Hdom|by apply Hdom|done|].
  rewrite (do_GET_root_page unquote path w Hname), Hkeys.
  rewrite fmap_app, fmap_cons, fmap_app, fmap_cons, Hk1, Hk2. cbn [default].
  match goal with
  | |- context [join newline (?a ++ ?x :: ?b ++ ?y :: ?c)] =>
      destruct (join_two_in_order newline a b c x y)
        as (pre & mid & post & ->)
  end.
  eexists _, (form_head +:+ pre), mid, (post +:+ form_tail).
  split; [done|]. unfold form_format, entry_line. by rewrite !append_assoc.
Qed.

Lemma listing_in_ascending_order_witness :
  exists page pre mid post,
    do_GET Demo.unquote "/" Demo.two_bookmarks
    = (Ok tt,
       mkWorld (memory Demo.two_bookmarks)
         (wire Demo.two_bookmarks
          ++ [send_response 200;
              send_header "Content-type" "text/html";
              end_headers;
              wfile_write page])
         (stdout Demo.two_bookmarks ++ ["Root path: ln 101"])
         (gets Demo.two_bookmarks))
    /\ page = pre +:+ ("a" +:+ " : " +:+ "http://y") +:+ mid
              +:+ ("b" +:+ " : " +:+ "http://x") +:+ post.
Proof.
  apply (listing_in_ascending_order Demo.unquote "/" Demo.two_bookmarks
           "a" "http://y" "b" "http://x"); reflexivity.
Defined.

(** X14. Every stored pair shows up in the root page as its
    [alias : uri] line. *)
Theorem listing_shows_every_entry
    (unquote : string -> string) path w name uri :
  truthy (unquote (slice_from_1 path)) = false ->
  memory w !! name = Some uri ->
  exists page,
    do_GET unquote path w
    = (Ok tt,
       mkWorld (memory w)
         (wire w ++ [send_response 200;
                     send_header "Content-type" "text/html";
                     end_headers;
                     wfile_write page])
         (stdout w ++ ["Root path: ln 101"]) (gets w))
    /\ contains page (name +:+ " : " +:+ uri).
Proof.
  intros Hname Hlook.
  destruct (sorted_keys_spec (memory w)) as (_ & _ & Hdom).
  destruct (list_elem_of_split (Store.sorted_keys (memory w)) name)
    as (l1 & l2 & Hkeys); [by apply Hdom|].
  rewrite (do_GET_root_page unquote path w Hname), Hkeys.
  rewrite fmap_app, fmap_cons, Hlook. cbn [default].
  match goal with
  | |- context [join newline (?a ++ ?x :: ?b)] =>
      destruct (join_suffix newline a x b) as (pre & ->);
      destruct (join_head newline x b) as (post & ->)
  end.
  eexists. split; [done|].
  exists (form_head +:+ pre), (post +:+ form_tail).
  unfold form_format, entry_line. by rewrite !append_assoc.
Qed.

Lemma listing_shows_every_entry_witness :
  exists page,
    do_GET Demo.unquote "/" one_bookmark
    = (Ok tt,
       mkWorld (memory one_bookmark)
         (wire one_bookmark
          ++ [send_response 200;
              send_header "Content-type" "text/html";
              end_headers;
              wfile_write page])
         (stdout one_bookmark ++ ["Root path: ln 101"]) (gets one_bookmark))
    /\ contains page ("up" +:+ " : " +:+ "http://up.example/").
Proof.
  apply (listing_shows_every_entry Demo.unquote "/" one_bookmark
           "up" "http://up.example/"); reflexivity.
Defined.

(** X15. With nothing stored, the root page is the bare form: the
    template with an empty listing. *)
Theorem root_page_of_empty_store (unquote : string -> string) path w :
  truthy (unquote (slice_from_1 path)) = false ->
  memory w = ∅ ->
  do_GET unquote path w
  = (Ok tt,
     mkWorld ∅
       (wire w ++ [send_response 200;
                   send_header "Content-type" "text/html";
                   end_headers;
                   wfile_write (form_head +:+ form_tail)])
       (stdout w ++ ["Root path: ln 101"]) (gets w)).
Proof.
  intros Hname Hempty.
  rewrite (do_GET_root_page unquote path w Hname), Hempty.
  unfold Store.sorted_keys. by rewrite map_to_list_empty.
Qed.

Lemma root_page_of_empty_store_witness :
  do_GET Demo.unquote "/" Demo.start
  = (Ok tt,
     mkWorld ∅
       (wire Demo.start ++ [send_response 200;
                            send_header "Content-type" "text/html";
                            end_headers;
                            wfile_write (form_head +:+ form_tail)])
       (stdout Demo.start ++ ["Root path: ln 101"]) (gets Demo.start)).
Proof.
  apply (root_page_of_empty_store Demo.unquote "/" Demo.start); reflexivity.
Defined.



(** X17. With both fields present: when the check returns true, the store
    afterwards is the store before with the first [shortname] value mapped
    to the first [longuri] value, and the answer is 303 with
    [Location: /]; when it returns false for a long URI that has a latin-1
    encoding, the answer is 404 with the message [Bad URI provided: ]
    followed by that URI, and the store is as before. *)
Theorem do_POST_checked_outcome
    (parse_qs : string -> gmap string (list string))
    (network : string -> Q -> get_outcome)
    body w longuri lrest shortname srest (b : bool) w1 :
  parse_qs body !! "longuri" = Some (longuri :: lrest) ->
  parse_qs body !! "shortname" = Some (shortname :: srest) ->
  CheckURI network longuri CheckURI_default_timeout w = (Ok b, w1) ->
  b = true \/ latin1_encodable longuri = true ->
  do_POST parse_qs network body w
  = (Ok tt,
     if b then
       mkWorld (<[shortname := longuri]> (memory w))
         (wire w ++ [send_response 303;
                     send_header "Content-type" "text/html; charset=utf-8";
                     send_header "Location" "/";
                     end_headers])
         (stdout w) (gets w ++ [(longuri, 2 # 1)])
     else
       mkWorld (memory w)
         (wire w ++ [send_error 404 ("Bad URI provided: " +:+ longuri)])
         (stdout w) (gets w ++ [(longuri, 2 # 1)])).
Proof.
  intros Hl Hs Hcheck Hcase.
  rewrite (do_POST_present parse_qs network body w _ _ _ _ Hl Hs), Hcheck.
  apply CheckURI_world in Hcheck as ->. destruct b; [done|].
  destruct Hcase as [?| ->]; done.
Qed.

Lemma do_POST_checked_outcome_witness :
  do_POST Demo.parse_qs Demo.network "longuri=http://up.example/&shortname=x"
    Demo.start
  = (Ok tt,
     mkWorld (<["x" := "http://up.example/"]> (memory Demo.start))
       (wire Demo.start
        ++ [send_response 303;
            send_header "Content-type" "text/html; charset=utf-8";
            send_header "Location" "/";
            end_headers])
       (stdout Demo.start)
       (gets Demo.start ++ [("http://up.example/", 2 # 1)]))
  /\ do_POST Demo.parse_qs Demo.network
       "longuri=http://down.example/&shortname=x" Demo.start
     = (Ok tt,
        mkWorld (memory Demo.start)
          (wire Demo.start
           ++ [send_error 404 ("Bad URI provided: " +:+ "http://down.example/")])
          (stdout Demo.start)
          (gets Demo.start ++ [("http://down.example/", 2 # 1)])).
Proof.
  split.
  - apply (do_POST_checked_outcome Demo.parse_qs Demo.network
             "longuri=http://up.example/&shortname=x" Demo.start
             "http://up.example/" [] "x" [] true
             (add_get "http://up.example/" (2 # 1) Demo.start));
      [reflexivity|reflexivity|reflexivity|by left].
  - apply (do_POST_checked_outcome Demo.parse_qs Demo.network
             "longuri=http://down.example/&shortname=x" Demo.start
             "http://down.example/" [] "x" [] false
             (add_get "http://down.example/" (2 # 1) Demo.start));
      [reflexivity|reflexivity|reflexivity|by right].
Defined.

(** X18. A GET whose decoded name is not empty: a name stored with a URI
    that has a latin-1 encoding is answered with 303 and a [Location]
    header carrying that URI; a name that is not stored is answered with
    404 and the plain-text body [I don't know '<name>'.]. *)
Theorem do_GET_known_and_unknown_names
    (unquote : string -> string) path name w :
  name = unquote (slice_from_1 path) ->
  truthy name = true ->
  (forall uri,
     memory w !! name = Some uri ->
     latin1_encodable uri = true ->
     do_GET unquote path w
     = (Ok tt,
        mkWorld (memory w)
          (wire w ++ [send_response 303;
                      send_header "Content-type" "text/html; charset=utf-8";
                      send_header "Location" uri;
                      end_headers])
          (stdout w ++ ["Redirect: ln 87"])
          (gets w)))
  /\ (memory w !! name = None ->
      do_GET unquote path w
      = (Ok tt,
         mkWorld (memory w)
           (wire w ++ [send_response 404;
                       send_header "Content-type" "text/plain; charset=utf-8";
                       end_headers;
                       wfile_write ("I don't know '" +:+ name +:+ "'.")])
           (stdout w ++ ["Unknown name: ln 94"])
           (gets w))).
Proof.
  intros -> Hname. split.
  - intros uri Hlook Huri.
    by rewrite (do_GET_named unquote path w Hname), Hlook, Huri.
  - intros Hlook. by rewrite (do_GET_named unquote path w Hname), Hlook.
Qed.

Lemma do_GET_known_and_unknown_names_witness :
  do_GET Demo.unquote "/a" Demo.two_bookmarks
  = (Ok tt,
     mkWorld (memory Demo.two_bookmarks)
       (wire Demo.two_bookmarks
        ++ [send_response 303;
            send_header "Content-type" "text/html; charset=utf-8";
            send_header "Location" "http://y";
            end_headers])
       (stdout Demo.two_bookmarks ++ ["Redirect: ln 87"])
       (gets Demo.two_bookmarks))
  /\ do_GET Demo.unquote "/zz" Demo.two_bookmarks
     = (Ok tt,
        mkWorld (memory Demo.two_bookmarks)
          (wire Demo.two_bookmarks
           ++ [send_response 404;
               send_header "Content-type" "text/plain; charset=utf-8";
               end_headers;
               wfile_write ("I don't know '" +:+ "zz" +:+ "'.")])
          (stdout Demo.two_bookmarks ++ ["Unknown name: ln 94"])
          (gets Demo.two_bookmarks)).
Proof.
  split.
  - apply (proj1 (do_GET_known_and_unknown_names Demo.unquote "/a" "a"
                    Demo.two_bookmarks eq_refl eq_refl) "http://y");
      reflexivity.
  - apply (proj2 (do_GET_known_and_unknown_names Demo.unquote "/zz" "zz"
                    Demo.two_bookmarks eq_refl eq_refl)).
    reflexivity.
Defined.
